(** * Content-quality scoring: [backend/app/utils/text_utils.py]

    A shallow embedding of the text utilities (normalizer, lexical analyzer,
    score aggregator) and the properties of the specification checked
    against them.

    Modelling conventions.
    - A Python [str] is a list of Unicode code points ([N]).
    - Python's Unicode database is not part of the repository.  White space
      ([str.isspace], the class [\s], [str.strip]) is a short closed list and
      is written out.  Alphanumerics ([\w]) and lower-casing are written out
      for ASCII and for the General Punctuation block; everywhere else they
      are taken from a [UnicodeData] parameter.
    - A Python [float] is an IEEE 754 binary64 value: Rocq's primitive
      [float], whose operations are the correctly rounded ones of the
      hardware.  Operations of the Python runtime that are not a single IEEE
      operation ([int / int], [round(x, ndigits)], the comparison of a float
      with an int) are defined from the exact rational value ([Q]) and rounded
      once with the standard library's [binary_normalize].
    - A function that returns either [{}] or a full dictionary returns an
      [option] of a record: [None] is the empty dictionary.
    - Exceptions are explicit: [outcome] is a value or a raised exception. *)

From Stdlib Require Import QArith Qround Lqa String Ascii Floats.
From stdpp Require Import base numbers list sorting gmap sets.

Close Scope Q_scope.
Local Open Scope N_scope.

(* Decimal float literals are written as in the source; each one denotes the
   nearest binary64 value, which is what Python's parser produces. *)
Set Warnings "-inexact-float".

(** ** Characters *)

(** ASCII string literals as code points (used for ASCII literals only). *)
Definition lit (s : string) : list N :=
  N_of_ascii <$> list_ascii_of_string s.

Definition in_range (lo hi c : N) : bool := (lo <=? c) && (c <=? hi).

(** [str.isspace]: the code points Python treats as white space; the same
    set is used by the regular-expression class [\s] and by [str.strip]. *)
Definition isspace (c : N) : bool :=
  in_range 0x09 0x0D c || in_range 0x1C 0x20 c
  || (c =? 0x85) || (c =? 0xA0) || (c =? 0x1680)
  || in_range 0x2000 0x200A c || (c =? 0x2028) || (c =? 0x2029)
  || (c =? 0x202F) || (c =? 0x205F) || (c =? 0x3000).

(** What Python's Unicode database decides outside ASCII: which code points
    are alphanumeric, and the lower-case mapping of a code point in its
    context (the text before it, the code point, the text after it; the
    context matters for the Greek final sigma). *)
Class UnicodeData := {
  uni_isalnum : N → bool;
  uni_lower : list N → N → list N → list N;
}.

(** A database in which no code point above U+007F is alphanumeric or
    cased.  It agrees with Python on ASCII text and closes the examples. *)
Definition basic_unicode : UnicodeData :=
  {| uni_isalnum := λ _, false; uni_lower := λ _ c _, [c] |}.

Definition ascii_isalnum (c : N) : bool :=
  in_range 48 57 c || in_range 65 90 c || in_range 97 122 c.

Definition ascii_lower (c : N) : N :=
  if in_range 65 90 c then c + 32 else c.

Section TextUtils.
Context {U : UnicodeData}.

(** [str.isalnum] on one code point.  The General Punctuation block
    (U+2000..U+206F: spaces, dashes, typographic quotes) holds no letter and
    no digit. *)
Definition isalnum (c : N) : bool :=
  if c <? 128 then ascii_isalnum c
  else if in_range 0x2000 0x206F c then false
  else uni_isalnum c.

(** The regular-expression class [\w]: alphanumerics and the underscore. *)
Definition is_word (c : N) : bool := isalnum c || (c =? 95).

(** [str.lower]. *)
Fixpoint lower_from (before s : list N) : list N :=
  match s with
  | [] => []
  | c :: rest =>
      (if c <? 128 then [ascii_lower c] else uni_lower before c rest)
      ++ lower_from (before ++ [c]) rest
  end.

Definition lower (s : list N) : list N := lower_from [] s.

(** ** String operations of the Python runtime used by the module *)

Fixpoint lstrip (s : list N) : list N :=
  match s with
  | [] => []
  | c :: rest => if isspace c then lstrip rest else s
  end.

Definition rstrip (s : list N) : list N := reverse (lstrip (reverse s)).

(** [str.strip()]. *)
Definition strip (s : list N) : list N := rstrip (lstrip s).

(** [re.sub(r'\s+', ' ', s)]: every maximal run of white space becomes one
    space.  [in_run] tells that the previous code point was white space. *)
Fixpoint sub_ws_runs (in_run : bool) (s : list N) : list N :=
  match s with
  | [] => []
  | c :: rest =>
      if isspace c
      then (if in_run then sub_ws_runs true rest else 32 :: sub_ws_runs true rest)
      else c :: sub_ws_runs false rest
  end.

Fixpoint is_prefix (p s : list N) : bool :=
  match p, s with
  | [], _ => true
  | _ :: _, [] => false
  | a :: p', b :: s' => (a =? b) && is_prefix p' s'
  end.

(** [s.replace(old, new)] for a non-empty [old]: left to right, occurrences
    do not overlap.  [skip] counts the code points of the occurrence being
    replaced that are still to be passed over. *)
Fixpoint replace_from (old new : list N) (skip : nat) (s : list N) : list N :=
  match s with
  | [] => []
  | c :: rest =>
      match skip with
      | S k => replace_from old new k rest
      | O =>
          if is_prefix old s
          then new ++ replace_from old new (pred (length old)) rest
          else c :: replace_from old new 0 rest
      end
  end.

(** [s.replace(old, new)]; for the empty [old] Python puts [new] before
    every code point and at the end. *)
Definition str_replace (old new s : list N) : list N :=
  match old with
  | [] => new ++ flat_map (λ c, c :: new) s
  | _ :: _ => replace_from old new 0 s
  end.

(** [s.split(sep)] for a non-empty [sep]. *)
Fixpoint split_from (sep cur : list N) (skip : nat) (s : list N) : list (list N) :=
  match s with
  | [] => [cur]
  | c :: rest =>
      match skip with
      | S k => split_from sep cur k rest
      | O =>
          if is_prefix sep s
          then cur :: split_from sep [] (pred (length sep)) rest
          else split_from sep (cur ++ [c]) 0 rest
      end
  end.

Definition str_split (sep s : list N) : list (list N) := split_from sep [] 0 s.

(** [re.findall(r'\b\w+\b', s)]: the maximal runs of word characters. *)
Fixpoint findall_from (cur s : list N) : list (list N) :=
  match s with
  | [] => match cur with [] => [] | _ :: _ => [cur] end
  | c :: rest =>
      if is_word c then findall_from (cur ++ [c]) rest
      else match cur with
           | [] => findall_from [] rest
           | _ :: _ => cur :: findall_from [] rest
           end
  end.

Definition findall_words (s : list N) : list (list N) := findall_from [] s.

(** [re.split(r'[.!?]+', s)]: the pieces between maximal runs of sentence
    terminators, empty pieces included. *)
Definition is_terminator (c : N) : bool := (c =? 46) || (c =? 33) || (c =? 63).

Fixpoint resplit_from (cur : list N) (in_run : bool) (s : list N) : list (list N) :=
  match s with
  | [] => [cur]
  | c :: rest =>
      if is_terminator c
      then (if in_run then resplit_from cur true rest
            else cur :: resplit_from [] true rest)
      else resplit_from (cur ++ [c]) false rest
  end.

Definition split_sentences (s : list N) : list (list N) := resplit_from [] false s.

(** A Python string is truthy when it is not empty. *)
Definition truthy (s : list N) : bool :=
  match s with [] => false | _ :: _ => true end.

(** ** [clean_text] *)

(** The characters that the substitution of line 29 keeps: word characters,
    white space, and the eleven punctuation marks of its character class
    (full stop, comma, exclamation and question mark, semicolon, colon, the
    two parentheses, apostrophe, double quote, hyphen). *)
Definition kept (c : N) : bool :=
  is_word c || isspace c
  || (c =? 46) || (c =? 44) || (c =? 33) || (c =? 63) || (c =? 59)
  || (c =? 58) || (c =? 40) || (c =? 41) || (c =? 39) || (c =? 34)
  || (c =? 45).

Definition dquote : list N := [34].
Definition apostrophe : list N := [39].
Definition hyphen : list N := [45].
Definition en_dash : list N := [0x2013].
Definition em_dash : list N := [0x2014].

(** Source line 33 is written with ASCII quotes only: its two runs of
    three apostrophes are, for Python's lexer, the delimiters of one
    triple-quoted literal.  The line is therefore a single call of
    [replace] whose first argument is the fifteen characters between the
    two runs (comma, space, double quote, apostrophe, double quote, closing
    parenthesis, full stop, the word replace, opening parenthesis) and
    whose second argument is an apostrophe.  Line 32, also in ASCII quotes,
    replaces the double quote by itself, twice. *)
Definition line33_literal : list N :=
  lit ", " ++ dquote ++ apostrophe ++ dquote ++ lit ").replace(".

(** Line 26: [re.sub(r'\s+', ' ', text.strip())]. *)
Definition collapse_whitespace (text : list N) : list N :=
  sub_ws_runs false (strip text).

Definition clean_text (text : list N) : list N :=
  if negb (truthy text) then []
  else
    let text := collapse_whitespace text in
    let text := List.filter kept text in
    let text := str_replace dquote dquote (str_replace dquote dquote text) in
    let text := str_replace line33_literal apostrophe text in
    let text := str_replace em_dash hyphen (str_replace en_dash hyphen text) in
    text.

(** ** Exceptions and numbers *)

Inductive exn := ZeroDivisionError.

(** The result of running Python code: a value, or a raised exception. *)
Inductive outcome (A : Type) :=
  | Returns (a : A)
  | Raises (e : exn).
Global Arguments Returns {A} a.
Global Arguments Raises {A} e.

Global Instance outcome_ret : MRet outcome := λ A a, Returns a.
Global Instance outcome_bind : MBind outcome := λ A B k m,
  match m with
  | Returns a => k a
  | Raises e => Raises e
  end.

(** A number as the module handles it: an [int] or a [float]. *)
Inductive pynum :=
  | PyInt (z : Z)
  | PyFloat (f : float).

(** The rational [(-1)^s * m * 2^e] denoted by a finite float. *)
Definition SF_value (s : bool) (m : positive) (e : Z) : Q :=
  let z := if s then Zneg m else Zpos m in
  if (0 <=? e)%Z then inject_Z (z * 2 ^ e) else Qmake z (Z.to_pos (2 ^ (- e))).

(** The float nearest to a rational, ties to even, overflow to infinity.
    The quotient is taken with at least two more bits than a float holds and
    a sticky bit for the remainder (no rounding boundary lies strictly
    between two consecutive quotients of that size), then rounded once by
    the standard library's [binary_normalize]. *)
Definition Q2SF (q : Q) : spec_float :=
  let n := Qnum q in
  let d := Zpos (Qden q) in
  if (n =? 0)%Z then S754_zero false
  else
    let a := Z.abs n in
    let k := Z.max 0 (prec + 2 + Z.log2_up d - Z.log2 a) in
    let '(quo, rem) := Z.div_eucl (a * 2 ^ k) d in
    let m := (2 * quo + (if (rem =? 0)%Z then 0 else 1))%Z in
    binary_normalize prec emax (if (n <? 0)%Z then (- m)%Z else m) (- k - 1) false.

Definition Q2float (q : Q) : float := SF2Prim (Q2SF q).

(** The quotient of [a / b] for [b] not zero: the exact quotient rounded
    once.  The operands of the module are lengths and counts, far below the
    range where the quotient would overflow. *)
Definition int_quotient (a b : Z) : float :=
  if (a =? 0)%Z then (if (b <? 0)%Z then neg_zero else zero)
  else Q2float (inject_Z a / inject_Z b).

(** [a / b] on two [int]s: true division, which raises on a zero divisor. *)
Definition truediv (a b : Z) : outcome float :=
  if (b =? 0)%Z then Raises ZeroDivisionError
  else Returns (int_quotient a b).

(** A float against an int: Python compares the exact values.  [None] when
    the float is not a number. *)
Definition SF_compare_int (x : spec_float) (n : Z) : option comparison :=
  match x with
  | S754_nan => None
  | S754_infinity s => Some (if s then Lt else Gt)
  | S754_zero _ => Some (0 ?= n)%Z
  | S754_finite s m e => Some (SF_value s m e ?= inject_Z n)%Q
  end.

Definition float_compare_int (x : float) (n : Z) : option comparison :=
  SF_compare_int (Prim2SF x) n.

(** [a < b] and [a <= b]. *)
Definition num_ltb (a b : pynum) : bool :=
  match a, b with
  | PyInt x, PyInt y => (x <? y)%Z
  | PyFloat x, PyFloat y => (x <? y)%float
  | PyFloat x, PyInt n =>
      match float_compare_int x n with Some Lt => true | _ => false end
  | PyInt n, PyFloat x =>
      match float_compare_int x n with Some Gt => true | _ => false end
  end.

Definition num_leb (a b : pynum) : bool :=
  match a, b with
  | PyInt x, PyInt y => (x <=? y)%Z
  | PyFloat x, PyFloat y => (x <=? y)%float
  | PyFloat x, PyInt n =>
      match float_compare_int x n with Some Lt | Some Eq => true | _ => false end
  | PyInt n, PyFloat x =>
      match float_compare_int x n with Some Gt | Some Eq => true | _ => false end
  end.

(** [max(a, b)] and [min(a, b)] on two arguments: the second one replaces
    the first only when it is strictly larger (smaller), so the first one
    wins a tie and the result keeps the type of the argument returned. *)
Definition py_max (a b : pynum) : pynum := if num_ltb a b then b else a.
Definition py_min (a b : pynum) : pynum := if num_ltb b a then b else a.

(** Rounding to the nearest integer, halves to the even neighbour. *)
Definition round_half_even (x : Q) : Z :=
  let f := Qfloor x in
  match (x - inject_Z f ?= 1 # 2)%Q with
  | Lt => f
  | Gt => (f + 1)%Z
  | Eq => if Z.even f then f else (f + 1)%Z
  end.

(** [round(x, ndigits)] on a float, for [ndigits >= 0]: the exact binary
    value is rounded to [ndigits] decimals, halves to even, and the decimal
    obtained is converted back to the nearest float; a zero keeps the sign
    of [x]; infinities and not-a-number are returned as they are. *)
Definition float_round (x : float) (ndigits : nat) : float :=
  match Prim2SF x with
  | S754_finite s m e =>
      let scale := inject_Z (10 ^ Z.of_nat ndigits) in
      let n := round_half_even (SF_value s m e * scale) in
      if (n =? 0)%Z then SF2Prim (S754_zero s)
      else Q2float (inject_Z n / scale)
  | _ => x
  end.

(** [round(x, ndigits)]: an [int] is returned unchanged for [ndigits >= 0]. *)
Definition py_round (x : pynum) (ndigits : nat) : pynum :=
  match x with
  | PyInt z => PyInt z
  | PyFloat f => PyFloat (float_round f ndigits)
  end.

(** [len]. *)
Definition len {A} (l : list A) : Z := Z.of_nat (length l).

(** ** [extract_keywords] *)


(** [collections.Counter]: a dictionary in insertion order, here the list
    of its items.  Counting an element increments its entry where it stands
    or appends a new entry. *)
Fixpoint counter_add (w : list N) (c : list (list N * Z)) : list (list N * Z) :=
  match c with
  | [] => [(w, 1%Z)]
  | (k, n) :: rest =>
      if decide (k = w) then (k, (n + 1)%Z) :: rest
      else (k, n) :: counter_add w rest
  end.

Definition Counter (ws : list (list N)) : list (list N * Z) :=
  foldl (λ c w, counter_add w c) [] ws.





(** ** [count_syllables] and [count_complex_words] *)

(** [char in "aeiouy"]. *)
Definition is_vowel (c : N) : bool :=
  (c =? 97) || (c =? 101) || (c =? 105) || (c =? 111) || (c =? 117) || (c =? 121).

(** The loop of [count_syllables]. *)
Fixpoint syllable_scan (on_vowel : bool) (count : Z) (s : list N) : Z :=
  match s with
  | [] => count
  | c :: rest =>
      let v := is_vowel c in
      syllable_scan v (if v && negb on_vowel then (count + 1)%Z else count) rest
  end.

(** [text.endswith('e')]. *)
Definition ends_with_e (s : list N) : bool :=
  match last s with Some c => c =? 101 | None => false end.

Definition count_syllables (text : list N) : Z :=
  let text := lower text in
  let count := syllable_scan false 0%Z text in
  let count := if ends_with_e text then (count - 1)%Z else count in
  Z.max 1 count.

Definition count_complex_words (text : list N) : Z :=
  let words := findall_words (lower text) in
  len (List.filter (λ word, (3 <=? count_syllables word)%Z) words).

(** ** [calculate_readability_score] *)

Record ReadabilityReport := {
  flesch_reading_ease : pynum;
  flesch_kincaid_grade : pynum;
  gunning_fog_index : pynum;
  avg_sentence_length : pynum;
  avg_syllables_per_word : pynum;
  complex_words_percentage : pynum;
}.

(** Lines 95-96: the sentences kept by the readability computation. *)
Definition readability_sentences (text : list N) : list (list N) :=
  strip <$> List.filter (λ s, truthy (strip s)) (split_sentences text).

(** The raw Flesch Reading Ease formula of line 113, in float arithmetic.
    A decimal literal denotes the nearest float, as in Python. *)
Definition flesch_formula (avg_sentence_length avg_syllables_per_word : float)
  : float :=
  (206.835 - (1.015 * avg_sentence_length)
   - (84.6 * avg_syllables_per_word))%float.

Definition calculate_readability_score (text : list N)
  : outcome (option ReadabilityReport) :=
  if negb (truthy text) then Returns None
  else
    let text := clean_text text in
    let sentences := readability_sentences text in
    let words := findall_words (lower text) in
    let syllables := count_syllables text in
    let num_sentences := len sentences in
    let num_words := len words in
    let num_syllables := syllables in
    if (num_sentences =? 0)%Z || (num_words =? 0)%Z then Returns None
    else
      avg_sentence_length ← truediv num_words num_sentences;
      avg_syllables_per_word ← truediv num_syllables num_words;
      let flesch_score := flesch_formula avg_sentence_length avg_syllables_per_word in
      let flesch_score := py_max (PyInt 0) (py_min (PyInt 100) (PyFloat flesch_score)) in
      let fk_grade :=
        ((0.39 * avg_sentence_length) + (11.8 * avg_syllables_per_word)
         - 15.59)%float in
      let fk_grade := py_max (PyInt 0) (PyFloat fk_grade) in
      let complex_words := count_complex_words text in
      words_per_sentence ← truediv num_words num_sentences;
      complex_ratio ← truediv complex_words num_words;
      let fog_index := (0.4 * (words_per_sentence + 100 * complex_ratio))%float in
      complex_ratio' ← truediv complex_words num_words;
      Returns (Some {|
        flesch_reading_ease := py_round flesch_score 2;
        flesch_kincaid_grade := py_round fk_grade 1;
        gunning_fog_index := py_round (PyFloat fog_index) 1;
        avg_sentence_length := py_round (PyFloat avg_sentence_length) 1;
        avg_syllables_per_word := py_round (PyFloat avg_syllables_per_word) 2;
        complex_words_percentage := py_round (PyFloat (complex_ratio' * 100)%float) 1;
      |}).

(** ** [extract_sentiment_words] *)

Definition positive_words : gset (list N) :=
  list_to_set (lit <$> [
    "good"; "great"; "excellent"; "amazing"; "wonderful"; "fantastic";
    "awesome"; "brilliant"; "outstanding"; "perfect"; "best"; "love";
    "like"; "enjoy"; "happy"; "pleased"; "satisfied"; "impressed"
  ]%string).

Definition negative_words : gset (list N) :=
  list_to_set (lit <$> [
    "bad"; "terrible"; "awful"; "horrible"; "worst"; "disappointing";
    "poor"; "unhappy"; "angry"; "frustrated"; "annoyed"; "upset";
    "hate"; "dislike"; "terrible"; "awful"; "horrible"
  ]%string).

Record Sentiment := {
  sentiment_positive : list (list N);
  sentiment_negative : list (list N);
}.

(** [list(set(xs))]: the distinct elements of [xs], each once.  Python fixes
    no order for them; [elements] picks one, and nothing below depends on
    which. *)
Definition list_of_set (xs : list (list N)) : list (list N) :=
  elements (list_to_set xs : gset (list N)).

Definition extract_sentiment_words (text : list N) : Sentiment :=
  let words := findall_words (lower text) in
  let positive_found := List.filter (λ word, bool_decide (word ∈ positive_words)) words in
  let negative_found := List.filter (λ word, bool_decide (word ∈ negative_words)) words in
  {| sentiment_positive := list_of_set positive_found;
     sentiment_negative := list_of_set negative_found |}.

(** ** [calculate_text_statistics] *)

Record TextStatistics := {
  characters : Z;
  characters_no_spaces : Z;
  words : Z;
  sentences : Z;
  paragraphs : Z;
  unique_words : Z;
  avg_word_length : pynum;
  readability : option ReadabilityReport;
  sentiment : Sentiment;
  estimated_reading_time : pynum;
}.

(** [sum(len(word) for word in ws)]. *)
Definition sum_len (ws : list (list N)) : Z := foldr (λ w acc, (len w + acc)%Z) 0%Z ws.

Definition calculate_text_statistics (text : list N)
  : outcome (option TextStatistics) :=
  if negb (truthy text) then Returns None
  else
    let text := clean_text text in
    let characters := len text in
    let characters_no_spaces := len (str_replace [32] [] text) in
    let words := len (findall_words text) in
    let sentences := len (split_sentences text) in
    let paragraphs :=
      len (List.filter (λ p, truthy (strip p)) (str_split [10; 10] text)) in
    let word_counts := Counter (findall_words (lower text)) in
    let unique_words := len word_counts in
    avg_word_length ←
      (if (0 <? words)%Z
       then q ← truediv (sum_len (findall_words text)) words; Returns (PyFloat q)
       else Returns (PyInt 0));
    readability ← calculate_readability_score text;
    let sentiment := extract_sentiment_words text in
    reading_time ← truediv words 200;
    Returns (Some {|
      characters := characters;
      characters_no_spaces := characters_no_spaces;
      words := words;
      sentences := sentences;
      paragraphs := paragraphs;
      unique_words := unique_words;
      avg_word_length := py_round avg_word_length 2;
      readability := readability;
      sentiment := sentiment;
      estimated_reading_time := py_round (PyFloat reading_time) 1;
    |}).

(** ** [generate_summary] *)

(** The loop of lines 212-217: sentences are appended, each followed by a
    full stop and a space, as long as the summary with the next sentence
    fits in [max_length]. *)
Fixpoint summary_loop (max_length : Z) (summary : list N)
    (sentences : list (list N)) : list N :=
  match sentences with
  | [] => summary
  | sentence :: rest =>
      if (len (summary ++ sentence) <=? max_length)%Z
      then summary_loop max_length (summary ++ (sentence ++ [46; 32])) rest
      else summary
  end.

(** Lines 201-202 compute the sentences as lines 95-96 do. *)
Definition generate_summary (text : list N) (max_length : Z) : list N :=
  if negb (truthy text) then []
  else
    let text := clean_text text in
    let sentences := readability_sentences text in
    if negb (match sentences with [] => false | _ :: _ => true end) then []
    else if (len text <=? max_length)%Z then text
    else strip (summary_loop max_length [] sentences).

(** ** [normalize_text] *)

Definition normalize_text (text : list N) : list N :=
  if negb (truthy text) then []
  else
    let text := lower text in
    let text := sub_ws_runs false text in
    strip text.

(** ** [extract_hashtags] and [extract_mentions] *)

(** A match of the pattern: the mark and at least one word character. *)
Definition emit_tag (cur : list N) : list (list N) :=
  match cur with
  | _ :: _ :: _ => [cur]
  | _ => []
  end.

(** [re.findall] of a mark followed by [\w+], for a mark that is not a word
    character (the hash and the at sign).  [cur] is the match under
    construction: empty outside a match, the mark and the word characters
    read so far inside one. *)
Fixpoint findall_tagged (mark : N) (cur s : list N) : list (list N) :=
  match s with
  | [] => emit_tag cur
  | c :: rest =>
      if truthy cur && is_word c then findall_tagged mark (cur ++ [c]) rest
      else emit_tag cur
           ++ findall_tagged mark (if c =? mark then [mark] else []) rest
  end.

Definition extract_hashtags (text : list N) : list (list N) :=
  let hashtags := findall_tagged 35 [] text in
  lower <$> hashtags.

Definition extract_mentions (text : list N) : list (list N) :=
  let mentions := findall_tagged 64 [] text in
  lower <$> mentions.

(** ** [extract_urls] *)

(** The four one-character alternatives of the group of [url_pattern], in
    order: an ASCII letter; a digit; the class made of the range from the
    dollar sign to the underscore (U+0024..U+005F) and of the at sign, full
    stop, ampersand and plus; the class made of the exclamation mark,
    asterisk, backslash, the parentheses and the comma. *)
Definition url_char (c : N) : bool :=
  (in_range 97 122 c || in_range 65 90 c)
  || in_range 48 57 c
  || (in_range 0x24 0x5F c || (c =? 64) || (c =? 46) || (c =? 38) || (c =? 43))
  || ((c =? 33) || (c =? 42) || (c =? 92) || (c =? 40) || (c =? 41) || (c =? 44)).

Definition is_hex (c : N) : bool :=
  in_range 48 57 c || in_range 97 102 c || in_range 65 70 c.

(** The greedy repetition of the group: how many code points it takes from
    [s].  The last alternative is a percent sign and two hexadecimal
    digits; [skip] passes over code points already taken by it.  Nothing
    follows the repetition in the pattern, so it never gives back. *)
Fixpoint url_tail (skip : nat) (s : list N) : nat :=
  match s with
  | [] => 0%nat
  | c :: rest =>
      match skip with
      | S k => S (url_tail k rest)
      | O =>
          if url_char c then S (url_tail 0 rest)
          else if (c =? 37)
                  && match rest with
                     | h1 :: h2 :: _ => is_hex h1 && is_hex h2
                     | _ => false
                     end
          then S (url_tail 2 rest)
          else 0%nat
      end
  end.

(** The length of the match of [url_pattern] that starts at the head of
    [s], if there is one: [http], an optional [s], [://], and at least one
    repetition of the group.  (When the optional [s] is taken and [://]
    does not follow, not taking it fails as well: the next code point is
    then an [s], not a colon.) *)
Definition url_match (s : list N) : option nat :=
  if is_prefix (lit "http") s then
    let after := drop 4 s in
    let has_s := match after with c :: _ => c =? 115 | [] => false end in
    let after := if has_s then drop 1 after else after in
    if is_prefix (lit "://") after then
      match url_tail 0 (drop 3 after) with
      | O => None
      | S n => Some ((if has_s then 5 else 4) + 3 + S n)%nat
      end
    else None
  else None.

(** [re.findall(url_pattern, text)]: the matches from left to right, the
    search resuming after each match. *)
Fixpoint urls_from (skip : nat) (s : list N) : list (list N) :=
  match s with
  | [] => []
  | c :: rest =>
      match skip with
      | S k => urls_from k rest
      | O =>
          match url_match s with
          | Some n => take n s :: urls_from (pred n) rest
          | None => urls_from 0 rest
          end
      end
  end.

Definition extract_urls (text : list N) : list (list N) :=
  let urls := urls_from 0 text in
  urls.

(** ** Predicates used to state the properties *)

(** [p] occurs in [s] as a contiguous substring. *)
Fixpoint occurs (p s : list N) : bool :=
  is_prefix p s || match s with [] => false | _ :: rest => occurs p rest end.

Definition starts_with_space (s : list N) : bool :=
  match s with c :: _ => c =? 32 | [] => false end.

Definition ends_with_space (s : list N) : bool :=
  match last s with Some c => c =? 32 | None => false end.

Fixpoint has_double_space (s : list N) : bool :=
  match s with
  | a :: (b :: _) as rest => (a =? 32) && (b =? 32) || has_double_space rest
  | _ => false
  end.

(** No leading space, no trailing space, no two spaces in a row. *)
Definition well_spaced (s : list N) : bool :=
  negb (starts_with_space s) && negb (ends_with_space s)
  && negb (has_double_space s).

(** A character as [clean_text] leaves it: one that line 29 keeps, and a
    plain space if it is white space at all. *)
Definition clean_char (c : N) : Prop :=
  kept c = true ∧ (isspace c = true → c = 32).





(** The aggregate syllable count as the specification words it: the sum,
    over the word tokens of the text, of the per-word syllable count. *)
Definition syllables_per_word_sum (text : list N) : Z :=
  foldr Z.add 0%Z (count_syllables <$> findall_words (lower text)).

(** [f] holds of the [count] integers from [lo] on. *)
Fixpoint forall_range (f : Z → bool) (lo : Z) (count : nat) : bool :=
  match count with
  | O => true
  | S c => f lo && forall_range f (lo + 1) c
  end.

(** A well-formed float whose exact value lies between two integers. *)
Definition SF_between (lo hi : Z) (x : spec_float) : bool :=
  valid_binary x
  && match SF_compare_int x lo with Some Gt | Some Eq => true | _ => false end
  && match SF_compare_int x hi with Some Lt | Some Eq => true | _ => false end.

(** An ASCII character that lower-casing leaves alone. *)
Definition ascii_lowered (c : N) : Prop := c < 128 ∧ ascii_lower c = c.

(** ** Facts about the string operations *)

Lemma sub_ws_runs_plain b s :
  Forall (λ c, isspace c = true → c = 32) (sub_ws_runs b s).
Proof.
  revert b. induction s as [|c s IH]; intros b; simpl; [constructor|].
  destruct (isspace c) eqn:E.
  - destruct b; [apply IH|]. constructor; [done | apply IH].
  - constructor; [congruence | apply IH].
Qed.

Lemma Forall_list_filter {A} (P : A → Prop) (f : A → bool) l :
  Forall P l → Forall (λ x, P x ∧ f x = true) (List.filter f l).
Proof.
  induction 1 as [|x l Hx Hl IH]; simpl; [constructor|].
  destruct (f x) eqn:E; [constructor|]; auto.
Qed.

Lemma list_filter_id {A} (f : A → bool) l :
  Forall (λ x, f x = true) l → List.filter f l = l.
Proof.
  induction 1 as [|x l Hx Hl IH]; simpl; [done|]. by rewrite Hx, IH.
Qed.

Lemma replace_from_Forall (P : N → Prop) old new k s :
  Forall P new → Forall P s → Forall P (replace_from old new k s).
Proof.
  intros Hnew Hs. revert k.
  induction Hs as [|c s Hc Hs IH]; intros k; simpl; [constructor|].
  destruct k; [|apply IH].
  destruct (is_prefix old (c :: s)).
  - apply Forall_app; split; [done | apply IH].
  - constructor; [done | apply IH].
Qed.

Lemma replace_from_absent old new s :
  occurs old s = false → replace_from old new 0 s = s.
Proof.
  induction s as [|c s IH]; cbn [occurs replace_from]; [done|].
  intros [Hp Ho]%orb_false_iff. rewrite Hp. f_equal. by apply IH.
Qed.

Lemma str_replace_absent old new s :
  old ≠ [] → occurs old s = false → str_replace old new s = s.
Proof.
  intros Hne Ho. destruct old; [done|]. by apply replace_from_absent.
Qed.

(** Replacing a one-character string by itself changes nothing. *)
Lemma str_replace_same a s : str_replace [a] [a] s = s.
Proof.
  unfold str_replace.
  induction s as [|c s IH]; simpl; [done|].
  destruct (a =? c) eqn:E; simpl.
  - apply N.eqb_eq in E. subst. by rewrite IH.
  - by rewrite IH.
Qed.

Lemma occurs_single_absent a s :
  Forall (λ c, c ≠ a) s → occurs [a] s = false.
Proof.
  induction 1 as [|c s Hc Hs IH]; simpl; [done|].
  rewrite IH, orb_false_r, andb_true_r. by apply N.eqb_neq.
Qed.



(** ** The shape of [clean_text]'s result *)

Lemma clean_text_chars text : Forall clean_char (clean_text text).
Proof.
  unfold clean_text. destruct (negb (truthy text)); [constructor|].
  cbv zeta. unfold dquote. rewrite !str_replace_same.
  unfold str_replace, en_dash, em_dash.
  assert (Hh : Forall clean_char hyphen) by (repeat constructor; done).
  assert (Ha : Forall clean_char apostrophe) by (repeat constructor; done).
  do 2 (apply replace_from_Forall; [done|]).
  change line33_literal with (44 :: tail line33_literal).
  apply replace_from_Forall; [done|].
  eapply Forall_impl;
    [apply Forall_list_filter, (sub_ws_runs_plain false (strip text))|].
  intros c [Hs Hk]. split; done.
Qed.


Lemma clean_char_not_en_dash c : clean_char c → c ≠ 0x2013.
Proof. intros [H _] ->. done. Qed.

Lemma clean_char_not_em_dash c : clean_char c → c ≠ 0x2014.
Proof. intros [H _] ->. done. Qed.

(** ** [clean_text] on a string that is already clean *)

Lemma lstrip_id s :
  Forall clean_char s → starts_with_space s = false → lstrip s = s.
Proof.
  destruct 1 as [|c s [_ Hc] Hs]; simpl; [done|].
  intros E. destruct (isspace c) eqn:Ec; [|done].
  rewrite (Hc eq_refl) in E. done.
Qed.

Lemma rstrip_id s :
  Forall clean_char s → ends_with_space s = false → rstrip s = s.
Proof.
  intros Hs E. unfold rstrip.
  rewrite lstrip_id; [apply reverse_involutive | by apply Forall_reverse |].
  unfold ends_with_space in E. rewrite <- head_reverse in E.
  by destruct (reverse s).
Qed.

Lemma sub_ws_runs_id b s :
  Forall clean_char s →
  (b = true → starts_with_space s = false) →
  has_double_space s = false →
  sub_ws_runs b s = s.
Proof.
  intros Hs. revert b.
  induction Hs as [|c s [_ Hc] Hs IH]; intros b Hb Hd; [done|].
  cbn [sub_ws_runs]. destruct (isspace c) eqn:Ec.
  - specialize (Hc eq_refl). subst c.
    destruct b; [by specialize (Hb eq_refl)|].
    f_equal. destruct s as [|d s]; [done|].
    cbn [has_double_space] in Hd. apply orb_false_iff in Hd as [Hd1 Hd2].
    apply IH; [intros _; exact Hd1 | exact Hd2].
  - f_equal. apply IH; [done|].
    destruct s as [|d s]; [done|].
    cbn [has_double_space] in Hd. by apply orb_false_iff in Hd as [_ Hd2].
Qed.

Lemma clean_text_fixes s :
  Forall clean_char s →
  well_spaced s = true →
  occurs line33_literal s = false →
  clean_text s = s.
Proof.
  intros Hs Hw Hn.
  apply andb_true_iff in Hw as [Hw Hd]. apply andb_true_iff in Hw as [Hl Hr].
  apply negb_true_iff in Hd, Hl, Hr.
  unfold clean_text. destruct (negb (truthy s)) eqn:Et; [by destruct s|].
  cbv zeta. unfold dquote. rewrite !str_replace_same.
  assert (Hc : collapse_whitespace s = s).
  { unfold collapse_whitespace, strip.
    rewrite (lstrip_id s), (rstrip_id s) by done.
    by apply sub_ws_runs_id. }
  rewrite Hc.
  rewrite (list_filter_id kept s)
    by (eapply Forall_impl; [exact Hs|]; by intros c [? _]).
  rewrite (str_replace_absent line33_literal) by done.
  rewrite (str_replace_absent en_dash); [|done|].
  - apply str_replace_absent; [done|]. apply occurs_single_absent.
    eapply Forall_impl; [exact Hs|]. apply clean_char_not_em_dash.
  - apply occurs_single_absent.
    eapply Forall_impl; [exact Hs|]. apply clean_char_not_en_dash.
Qed.

(** ** Line 26 leaves a well-spaced string *)

Lemma lstrip_head s :
  match lstrip s with c :: _ => isspace c = false | [] => True end.
Proof.
  induction s as [|c s IH]; simpl; [done|].
  destruct (isspace c) eqn:E; [exact IH | exact E].
Qed.

Lemma rstrip_suffix s :
  ∃ q, s = rstrip s ++ q ∧ Forall (λ c, isspace c = true) q.
Proof.
  assert (Hl : ∀ u, ∃ p, u = p ++ lstrip u ∧ Forall (λ c, isspace c = true) p).
  { induction u as [|c u (p & Hp & Hsp)]; simpl; [by exists []|].
    destruct (isspace c) eqn:E; [|by exists []].
    exists (c :: p). split; [by rewrite Hp at 1 | by constructor]. }
  destruct (Hl (reverse s)) as (p & Hp & Hsp). exists (reverse p). split.
  - unfold rstrip. rewrite <- reverse_app, <- Hp. by rewrite reverse_involutive.
  - by apply Forall_reverse.
Qed.

Lemma strip_ends s :
  match strip s with c :: _ => isspace c = false | [] => True end
  ∧ match last (strip s) with Some c => isspace c = false | None => True end.
Proof.
  split.
  - unfold strip. pose proof (lstrip_head s) as Hh.
    destruct (rstrip_suffix (lstrip s)) as (q & Hq & Hsp).
    destruct (rstrip (lstrip s)) as [|c u]; [done|].
    rewrite Hq in Hh. exact Hh.
  - unfold strip, rstrip. rewrite last_reverse.
    pose proof (lstrip_head (reverse (lstrip s))) as Hh.
    by destruct (lstrip (reverse (lstrip s))).
Qed.

Lemma sub_ws_runs_snoc b s c :
  isspace c = false → sub_ws_runs b (s ++ [c]) = sub_ws_runs b s ++ [c].
Proof.
  intros Hc. revert b. induction s as [|d s IH]; intros b; simpl.
  - by rewrite Hc.
  - destruct (isspace d); [destruct b|]; by rewrite IH.
Qed.

Lemma sub_ws_runs_spacing s :
  starts_with_space (sub_ws_runs true s) = false
  ∧ ∀ b, has_double_space (sub_ws_runs b s) = false.
Proof.
  induction s as [|c s [IH1 IH2]]; [done|]. cbn [sub_ws_runs].
  destruct (isspace c) eqn:E.
  - split; [exact IH1|]. intros [|]; [apply IH2|].
    specialize (IH2 true). destruct (sub_ws_runs true s) as [|d u]; [done|].
    change (has_double_space (32 :: d :: u))
      with ((32 =? 32) && (d =? 32) || has_double_space (d :: u)).
    simpl in IH1. by rewrite IH1, IH2.
  - assert (Hc : (c =? 32) = false).
    { apply N.eqb_neq. intros ->. done. }
    split; [exact Hc|]. intros b. specialize (IH2 false).
    destruct (sub_ws_runs false s) as [|d u]; [done|].
    change (has_double_space (c :: d :: u))
      with ((c =? 32) && (d =? 32) || has_double_space (d :: u)).
    by rewrite Hc, IH2.
Qed.

Lemma collapse_whitespace_well_spaced s :
  well_spaced (collapse_whitespace s) = true.
Proof.
  unfold collapse_whitespace. destruct (strip_ends s) as [Hh Hl].
  unfold well_spaced. rewrite !andb_true_iff, !negb_true_iff. repeat split.
  - destruct (strip s) as [|c u]; [done|]. cbn [sub_ws_runs].
    rewrite Hh. simpl. apply N.eqb_neq. intros ->. done.
  - destruct (strip s) as [|c u _] using rev_ind; [done|].
    rewrite last_snoc in Hl. rewrite sub_ws_runs_snoc by done.
    unfold ends_with_space. rewrite last_snoc.
    apply N.eqb_neq. intros ->. done.
  - apply sub_ws_runs_spacing.
Qed.

Lemma sub_ws_runs_kept b s :
  Forall (λ c, kept c = true) s → Forall (λ c, kept c = true) (sub_ws_runs b s).
Proof.
  intros Hs. revert b. induction Hs as [|c s Hc Hs IH]; intros b; simpl;
    [constructor|].
  destruct (isspace c); [destruct b|]; try constructor; auto.
Qed.

Lemma strip_kept s :
  Forall (λ c, kept c = true) s → Forall (λ c, kept c = true) (strip s).
Proof.
  assert (Hl : ∀ u, Forall (λ c, kept c = true) u →
                    Forall (λ c, kept c = true) (lstrip u)).
  { induction 1 as [|c u Hc Hu IH]; simpl; [constructor|].
    destruct (isspace c); [done | by constructor]. }
  intros Hs. unfold strip, rstrip.
  by apply Forall_reverse, Hl, Forall_reverse, Hl.
Qed.

(** On a text made of kept characters only, in which line 33 finds
    nothing to replace, [clean_text] stops at line 26. *)
Lemma clean_text_of_kept x :
  Forall (λ c, kept c = true) x →
  occurs line33_literal (collapse_whitespace x) = false →
  clean_text x = collapse_whitespace x.
Proof.
  intros Hk Hn. unfold clean_text.
  destruct (negb (truthy x)) eqn:Et; [by destruct x|].
  cbv zeta. unfold dquote. rewrite !str_replace_same.
  assert (Hc : Forall (λ c, kept c = true) (collapse_whitespace x))
    by (by apply sub_ws_runs_kept, strip_kept).
  rewrite (list_filter_id kept) by done.
  rewrite (str_replace_absent line33_literal) by done.
  assert (Hd : ∀ d, kept d = false →
                    occurs [d] (collapse_whitespace x) = false).
  { intros d Hd. apply occurs_single_absent.
    eapply Forall_impl; [exact Hc|]. intros c Hkc ->. congruence. }
  rewrite (str_replace_absent en_dash); [|done|by apply Hd].
  apply str_replace_absent; [done | by apply Hd].
Qed.

(** ** Counting: [Counter] *)









(** ** Ranking: the stable descending sort *)






(** ** Numbers *)

Lemma truediv_nonzero a b :
  b ≠ 0%Z → truediv a b = Returns (int_quotient a b).
Proof. intros Hb. unfold truediv. by rewrite (proj2 (Z.eqb_neq b 0) Hb). Qed.

Lemma truediv_raises_iff a b :
  truediv a b = Raises ZeroDivisionError ↔ b = 0%Z.
Proof.
  unfold truediv. destruct (b =? 0)%Z eqn:E.
  - by apply Z.eqb_eq in E.
  - apply Z.eqb_neq in E. split; [discriminate | done].
Qed.

Lemma round_half_even_bounds (lo hi : Z) (x : Q) :
  (inject_Z lo <= x)%Q → (x <= inject_Z hi)%Q →
  (lo ≤ round_half_even x ≤ hi)%Z.
Proof.
  intros Hlo Hhi.
  assert (Hf1 : (lo ≤ Qfloor x)%Z).
  { rewrite <- (Qfloor_Z lo). by apply Qfloor_resp_le. }
  assert (Hf2 : (Qfloor x ≤ hi)%Z).
  { rewrite <- (Qfloor_Z hi). by apply Qfloor_resp_le. }
  assert (Hup : (0 < x - inject_Z (Qfloor x))%Q → (Qfloor x + 1 ≤ hi)%Z).
  { intros Hpos. assert (H : (inject_Z (Qfloor x) < inject_Z hi)%Q) by lra.
    rewrite <- Zlt_Qlt in H. lia. }
  unfold round_half_even. cbv zeta.
  destruct (x - inject_Z (Qfloor x) ?= 1 # 2)%Q eqn:E.
  - apply Qeq_alt in E. destruct (Z.even (Qfloor x)); [lia|].
    split; [lia|]. apply Hup. lra.
  - lia.
  - apply Qgt_alt in E. split; [lia|]. apply Hup. lra.
Qed.

(** The clamp of line 114, by cases on the raw score. *)
Lemma py_clamp_cases (raw : float) :
  let clamped := py_max (PyInt 0) (py_min (PyInt 100) (PyFloat raw)) in
  (clamped = PyInt 100 ∧ num_ltb (PyFloat raw) (PyInt 100) = false)
  ∨ (clamped = PyInt 0 ∧ num_ltb (PyFloat raw) (PyInt 100) = true
     ∧ num_ltb (PyInt 0) (PyFloat raw) = false)
  ∨ (clamped = PyFloat raw ∧ num_ltb (PyFloat raw) (PyInt 100) = true
     ∧ num_ltb (PyInt 0) (PyFloat raw) = true).
Proof.
  cbv zeta. unfold py_min.
  destruct (num_ltb (PyFloat raw) (PyInt 100)) eqn:E100.
  - unfold py_max. destruct (num_ltb (PyInt 0) (PyFloat raw)) eqn:E0; auto.
  - left. split; [|done]. reflexivity.
Qed.

(** Every decimal [n / 100] with [1 <= n <= 10000] converts to a float
    between 0 and 100. *)
Lemma forall_range_spec f lo count n :
  forall_range f lo count = true →
  (lo ≤ n < lo + Z.of_nat count)%Z → f n = true.
Proof.
  revert lo. induction count as [|c IH]; intros lo; [lia|].
  cbn [forall_range]. intros [Hlo Hrest]%andb_true_iff Hn.
  destruct (decide (n = lo)) as [-> | Hne]; [done|].
  apply (IH (lo + 1)%Z); [done | lia].
Qed.

Lemma hundredths_between :
  forall_range (λ n, SF_between 0 100 (Q2SF (inject_Z n / inject_Z 100)))
    1 (Z.to_nat 10000) = true.
Proof. vm_compute. reflexivity. Qed.

Lemma float_compare_int_SF2Prim x n :
  valid_binary x = true →
  float_compare_int (SF2Prim x) n = SF_compare_int x n.
Proof. intros Hv. unfold float_compare_int. by rewrite Prim2SF_SF2Prim. Qed.

Lemma SF_between_num_leb lo hi x :
  SF_between lo hi x = true →
  num_leb (PyInt lo) (PyFloat (SF2Prim x)) = true
  ∧ num_leb (PyFloat (SF2Prim x)) (PyInt hi) = true.
Proof.
  unfold SF_between. intros [[Hv Hlo]%andb_true_iff Hhi]%andb_true_iff.
  unfold num_leb. by rewrite !float_compare_int_SF2Prim.
Qed.

(** [round(x, 2)] of a float strictly between 0 and 100 lies between 0 and
    100. *)
Lemma float_round_2_between (x : float) :
  num_ltb (PyInt 0) (PyFloat x) = true →
  num_ltb (PyFloat x) (PyInt 100) = true →
  num_leb (PyInt 0) (PyFloat (float_round x 2)) = true
  ∧ num_leb (PyFloat (float_round x 2)) (PyInt 100) = true.
Proof.
  unfold num_ltb, float_compare_int, float_round.
  destruct (Prim2SF x) as [s|s| |s m e] eqn:E; cbn [SF_compare_int].
  - discriminate.
  - destruct s; discriminate.
  - discriminate.
  - destruct (SF_value s m e ?= inject_Z 0)%Q eqn:E0; try discriminate.
    destruct (SF_value s m e ?= inject_Z 100)%Q eqn:E100; try discriminate.
    intros _ _. apply Qgt_alt in E0. apply Qlt_alt in E100.
    cbv zeta. change (inject_Z (10 ^ Z.of_nat 2)) with (inject_Z 100).
    set (v := SF_value s m e) in *.
    destruct (round_half_even_bounds 0 10000 (v * inject_Z 100)%Q) as [Ha Hb].
    { change (inject_Z 0) with 0%Q in *. change (inject_Z 100) with (100 # 1)%Q in *. lra. }
    { change (inject_Z 10000) with (10000 # 1)%Q.
      change (inject_Z 100) with (100 # 1)%Q in *. lra. }
    set (n := round_half_even _) in *.
    destruct (n =? 0)%Z eqn:En.
    + apply (SF_between_num_leb 0 100 (S754_zero s)). by destruct s.
    + apply Z.eqb_neq in En. unfold Q2float. apply SF_between_num_leb.
      apply (forall_range_spec _ 1 (Z.to_nat 10000) n hundredths_between).
      lia.
Qed.

(** ** White space at the ends *)

Lemma lstrip_nil s :
  lstrip s = [] ↔ Forall (λ c, isspace c = true) s.
Proof.
  induction s as [|c s IH]; simpl; [by split; [constructor|]|].
  destruct (isspace c) eqn:E.
  - rewrite IH. split; [by constructor | by intros [_ ?]%Forall_cons].
  - split; [done|]. intros [? _]%Forall_cons. congruence.
Qed.

Lemma Forall_space_lstrip s :
  Forall (λ c, isspace c = true) (lstrip s) ↔ Forall (λ c, isspace c = true) s.
Proof.
  induction s as [|c s IH]; simpl; [done|].
  destruct (isspace c) eqn:E; [|done].
  rewrite IH. split; [by constructor | by intros [_ ?]%Forall_cons].
Qed.

Lemma strip_nil s :
  strip s = [] ↔ Forall (λ c, isspace c = true) s.
Proof.
  unfold strip, rstrip. rewrite <- Forall_space_lstrip.
  rewrite <- (Forall_reverse _ (lstrip s)), <- lstrip_nil.
  split; [|by intros ->].
  intros H. apply (f_equal reverse) in H. by rewrite reverse_involutive in H.
Qed.

(** ** The two return shapes *)

Lemma calculate_readability_score_shape text :
  let t := clean_text text in
  let nw := len (findall_words (lower t)) in
  let ns := len (readability_sentences t) in
  ((nw = 0%Z ∨ ns = 0%Z) ∧ calculate_readability_score text = Returns None)
  ∨ (nw ≠ 0%Z ∧ ns ≠ 0%Z ∧
     ∃ rep, calculate_readability_score text = Returns (Some rep)
       ∧ flesch_reading_ease rep
         = py_round (py_max (PyInt 0) (py_min (PyInt 100)
             (PyFloat (flesch_formula (int_quotient nw ns)
                (int_quotient (count_syllables t) nw))))) 2
       ∧ avg_syllables_per_word rep
         = py_round (PyFloat (int_quotient (count_syllables t) nw)) 2).
Proof.
  intros t nw ns. destruct text as [|c text].
  { left. split; [by left | done]. }
  unfold calculate_readability_score. cbn [truthy negb]. cbv zeta.
  fold t. fold nw. fold ns.
  destruct ((ns =? 0)%Z || (nw =? 0)%Z) eqn:E.
  - left. split; [|done].
    apply orb_true_iff in E as [E|E]; apply Z.eqb_eq in E; auto.
  - right. apply orb_false_iff in E as [Es Ew].
    apply Z.eqb_neq in Es, Ew. split; [done|]. split; [done|].
    rewrite !truediv_nonzero by done. eexists. split; [reflexivity|]. done.
Qed.


(** ** Lists and sets *)

Lemma elem_of_list_filter {A} (f : A → bool) l x :
  x ∈ List.filter f l ↔ x ∈ l ∧ f x = true.
Proof. rewrite !list_elem_of_In. apply filter_In. Qed.


Lemma NoDup_once {A} (l : list A) w :
  NoDup l → w ∈ l → ∃ l1 l2, l = l1 ++ w :: l2 ∧ (w ∉ l1) ∧ (w ∉ l2).
Proof.
  intros Hnd (l1 & l2 & ->)%list_elem_of_split.
  apply NoDup_app in Hnd as (_ & Hdis & [Hw _]%NoDup_cons).
  exists l1, l2. split; [done|]. split; [|done].
  intros Hin. apply (Hdis w Hin). by left.
Qed.

Lemma list_of_set_elem xs w : w ∈ list_of_set xs ↔ w ∈ xs.
Proof. unfold list_of_set. by rewrite elem_of_elements, elem_of_list_to_set. Qed.

Lemma list_of_set_NoDup xs : NoDup (list_of_set xs).
Proof. unfold list_of_set. apply NoDup_elements. Qed.

(** ** Characters that survive the pipeline *)

Lemma lstrip_prefix s :
  ∃ p, s = p ++ lstrip s ∧ Forall (λ c, isspace c = true) p.
Proof.
  induction s as [|c s (p & Hp & Hsp)]; simpl; [by exists []|].
  destruct (isspace c) eqn:E; [|by exists []].
  exists (c :: p). split; [by rewrite Hp at 1 | by constructor].
Qed.

Lemma strip_decompose s :
  ∃ p q, s = p ++ strip s ++ q.
Proof.
  destruct (lstrip_prefix s) as (p & Hp & _).
  destruct (rstrip_suffix (lstrip s)) as (q & Hq & _).
  exists p, q. unfold strip. by rewrite <- Hq.
Qed.

Lemma strip_Forall (P : N → Prop) s : Forall P s → Forall P (strip s).
Proof.
  destruct (strip_decompose s) as (p & q & Hs). intros H.
  rewrite Hs in H. by apply Forall_app in H as [_ [H _]%Forall_app].
Qed.

Lemma sub_ws_runs_Forall (P : N → Prop) b s :
  P 32 → Forall P s → Forall P (sub_ws_runs b s).
Proof.
  intros H32 Hs. revert b.
  induction Hs as [|c s Hc Hs IH]; intros b; simpl; [constructor|].
  destruct (isspace c); [destruct b|]; try constructor; auto.
Qed.

Lemma ascii_lower_lowered c : c < 128 → ascii_lowered (ascii_lower c).
Proof.
  intros Hc. unfold ascii_lowered, ascii_lower, in_range.
  destruct (65 <=? c) eqn:E1; destruct (c <=? 90) eqn:E2; simpl;
    try (split; [done|]; by rewrite E1, E2).
  apply N.leb_le in E1, E2. split; [lia|].
  rewrite (proj2 (N.leb_gt (c + 32) 90)) by lia. by rewrite andb_false_r.
Qed.

Lemma lower_from_ascii before s :
  Forall (λ c, c < 128) s → Forall ascii_lowered (lower_from before s).
Proof.
  intros Hs. revert before.
  induction Hs as [|c s Hc Hs IH]; intros before; simpl; [constructor|].
  rewrite (proj2 (N.ltb_lt c 128) Hc). constructor; [|apply IH].
  by apply ascii_lower_lowered.
Qed.





(** ** Counting in a filtered list *)




(** X4.  [clean_text] is idempotent on every text that consists of kept
    characters only and in which line 33 finds nothing to replace. *)
Lemma clean_text_idempotent_on_kept_input x :
  Forall (λ c, kept c = true) x →
  occurs line33_literal (collapse_whitespace x) = false →
  clean_text (clean_text x) = clean_text x.
Proof.
  intros Hk Hn. apply clean_text_fixes; [apply clean_text_chars| |];
    rewrite (clean_text_of_kept x) by done;
    [apply collapse_whitespace_well_spaced | done].
Qed.

(** * The claims *)


(** C2 (the code at the failing input).  [calculate_readability_score]
    calls [count_syllables] once on the whole text, so the adjustment for a
    final e and the floor at one syllable apply to the text, not to each
    word.  On the text made of the word the twice, the count used is 1
    although the two words count one syllable each (sum 2), and the report
    gives 0.5 syllables per word. *)
Theorem syllables_counted_on_whole_text :
  count_syllables (clean_text (lit "the the")) = 1%Z
  ∧ syllables_per_word_sum (clean_text (lit "the the")) = 2%Z
  ∧ ∃ rep, calculate_readability_score (lit "the the") = Returns (Some rep)
      ∧ avg_syllables_per_word rep = PyFloat 0.5.
Proof.
  split; [by vm_compute|]. split; [by vm_compute|].
  eexists. split; [vm_compute; reflexivity|]. done.
Qed.

(** C3 (the code at the failing input).  The sentence count of the
    statistics report is the number of pieces [re.split] returns (line 276),
    the empty piece after a final terminator included: the report of
    [The cat sat.] has 3 words and 2 sentences.  The readability computation
    (lines 95-96) filters the pieces and counts 1 sentence. *)
Theorem statistics_count_trailing_fragment :
  ∃ r, calculate_text_statistics (lit "The cat sat.") = Returns (Some r)
    ∧ words r = 3%Z
    ∧ sentences r = 2%Z
    ∧ len (readability_sentences (clean_text (lit "The cat sat."))) = 1%Z.
Proof.
  eexists. split; [vm_compute; reflexivity|]. by vm_compute.
Qed.

(** C4 (the code at the failing input).  Line 29 deletes every character
    outside its class before lines 32-34 run, so typographic quotes and
    dashes are deleted, not replaced: a, em dash, b becomes ab, with no
    hyphen, and likewise for the en dash and the curly quotes. *)
Theorem typographic_characters_are_deleted :
  clean_text (lit "a" ++ em_dash ++ lit "b") = lit "ab"
  ∧ clean_text (lit "a" ++ en_dash ++ lit "b") = lit "ab"
  ∧ clean_text ([0x201C] ++ lit "a" ++ [0x201D]) = lit "a"
  ∧ clean_text (lit "it" ++ [0x2019] ++ lit "s") = lit "its"
  ∧ 45 ∉ clean_text (lit "a" ++ em_dash ++ lit "b").
Proof.
  repeat split; try by vm_compute.
  vm_compute. intros H. repeat (apply elem_of_cons in H as [H|H]; [done|]).
  by apply elem_of_nil in H.
Qed.

(** C5 (the code at the failing input).  White space is collapsed and
    trimmed (line 26, under the comment that announces the removal of extra
    white space) before the characters outside the class of line 29 are
    deleted, so the spaces around a deleted character stay: [a # b] is
    cleaned to a, two spaces, b, and only a second pass gives [a b]; [# a]
    keeps a leading space and [a #] a trailing one. *)
Theorem clean_text_leaves_extra_whitespace :
  clean_text (lit "a # b") = lit "a  b"
  ∧ clean_text (clean_text (lit "a # b")) = lit "a b"
  ∧ clean_text (clean_text (lit "a # b")) ≠ clean_text (lit "a # b")
  ∧ well_spaced (clean_text (lit "a # b")) = false
  ∧ clean_text (lit "# a") = lit " a"
  ∧ clean_text (lit "a #") = lit "a "
  ∧ clean_text (lit "A & B") = lit "A  B".
Proof.
  split; [by vm_compute|]. split; [by vm_compute|].
  split; [by vm_compute|]. split; [by vm_compute|].
  split; [by vm_compute|]. split; by vm_compute.
Qed.

(** C6.  A readability report is produced only when the text has words and
    sentences.  Its Flesch Reading Ease is the formula of line 113, computed
    in floats, clamped by line 114 (the int 100 when the raw score is not
    below 100, the int 0 when it is not above 0, the raw score otherwise)
    and rounded to two decimals by line 125; the value returned lies in
    [0, 100]. *)
Theorem flesch_reading_ease_bounded text rep :
  calculate_readability_score text = Returns (Some rep) →
  let t := clean_text text in
  let nw := len (findall_words (lower t)) in
  let ns := len (readability_sentences t) in
  let raw := flesch_formula (int_quotient nw ns)
               (int_quotient (count_syllables t) nw) in
  let clamped := py_max (PyInt 0) (py_min (PyInt 100) (PyFloat raw)) in
  nw ≠ 0%Z ∧ ns ≠ 0%Z
  ∧ flesch_reading_ease rep = py_round clamped 2
  ∧ ((clamped = PyInt 100 ∧ num_ltb (PyFloat raw) (PyInt 100) = false)
     ∨ (clamped = PyInt 0 ∧ num_ltb (PyFloat raw) (PyInt 100) = true
        ∧ num_ltb (PyInt 0) (PyFloat raw) = false)
     ∨ (clamped = PyFloat raw ∧ num_ltb (PyFloat raw) (PyInt 100) = true
        ∧ num_ltb (PyInt 0) (PyFloat raw) = true))
  ∧ num_leb (PyInt 0) (flesch_reading_ease rep) = true
  ∧ num_leb (flesch_reading_ease rep) (PyInt 100) = true.
Proof.
  intros H t nw ns raw clamped.
  destruct (calculate_readability_score_shape text)
    as [[_ H']|(Hw & Hs & rep' & H' & Hf & _)]; [congruence|].
  assert (rep' = rep) as -> by congruence.
  split; [done|]. split; [done|]. split; [exact Hf|].
  split; [apply py_clamp_cases|].
  rewrite Hf. fold t nw ns raw.
  destruct (py_clamp_cases raw) as [[-> _]|[(-> & _ & _)|(-> & H100 & H0)]];
    [done | done |].
  by apply float_round_2_between.
Qed.

(** C7.  [calculate_readability_score] never raises: with no word or no
    sentence it returns the empty report before any division, and with
    both it returns a report, every division having a non-zero divisor
    ([truediv] raises exactly on a zero divisor). *)
Theorem readability_never_divides_by_zero text :
  let t := clean_text text in
  let nw := len (findall_words (lower t)) in
  let ns := len (readability_sentences t) in
  (∀ e, calculate_readability_score text ≠ Raises e)
  ∧ (nw = 0%Z ∨ ns = 0%Z ↔ calculate_readability_score text = Returns None)
  ∧ (nw ≠ 0%Z ∧ ns ≠ 0%Z ↔
     ∃ rep, calculate_readability_score text = Returns (Some rep))
  ∧ (∀ a b, truediv a b = Raises ZeroDivisionError ↔ b = 0%Z).
Proof.
  intros t nw ns.
  destruct (calculate_readability_score_shape text)
    as [[H0 H]|(Hw & Hs & rep & H & _)]; fold t nw ns in H0 || fold t nw ns in Hw, Hs.
  - split; [intros e; congruence|]. split; [done|]. split.
    + split; [lia|]. intros [rep Hrep]. congruence.
    + apply truediv_raises_iff.
  - split; [intros e; congruence|]. split; [|split].
    + split; [lia | congruence].
    + split; [by eexists | done].
    + apply truediv_raises_iff.
Qed.


(** C9.  Each lexicon word that occurs among the tokens of the lower-cased
    text is listed exactly once in the corresponding output list, however
    often it occurs; nothing else is listed.  For [good good great] the
    positive list has two entries, good and great. *)
Theorem sentiment_words_listed_once text :
  let s := extract_sentiment_words text in
  let tokens := findall_words (lower text) in
  (∀ w, w ∈ positive_words → w ∈ tokens →
     ∃ l1 l2, sentiment_positive s = l1 ++ w :: l2 ∧ (w ∉ l1) ∧ (w ∉ l2))
  ∧ (∀ w, w ∈ negative_words → w ∈ tokens →
     ∃ l1 l2, sentiment_negative s = l1 ++ w :: l2 ∧ (w ∉ l1) ∧ (w ∉ l2))
  ∧ (∀ w, w ∈ sentiment_positive s → w ∈ positive_words ∧ w ∈ tokens)
  ∧ (∀ w, w ∈ sentiment_negative s → w ∈ negative_words ∧ w ∈ tokens)
  ∧ (let p := sentiment_positive (extract_sentiment_words (lit "good good great")) in
     length p = 2%nat ∧ ∀ w, w ∈ p ↔ w = lit "good" ∨ w = lit "great").
Proof.
  intros s tokens. unfold s, extract_sentiment_words. cbv zeta.
  fold tokens. cbn [sentiment_positive sentiment_negative].
  split; [|split; [|split; [|split]]].
  - intros w Hw Ht. apply NoDup_once; [apply list_of_set_NoDup|].
    apply list_of_set_elem, elem_of_list_filter. split; [done|].
    by apply bool_decide_eq_true.
  - intros w Hw Ht. apply NoDup_once; [apply list_of_set_NoDup|].
    apply list_of_set_elem, elem_of_list_filter. split; [done|].
    by apply bool_decide_eq_true.
  - intros w [Ht Hw]%list_of_set_elem%elem_of_list_filter.
    by apply bool_decide_eq_true in Hw.
  - intros w [Ht Hw]%list_of_set_elem%elem_of_list_filter.
    by apply bool_decide_eq_true in Hw.
  - assert (E : list_of_set
        (List.filter (λ word, bool_decide (word ∈ positive_words))
           (findall_words (lower (lit "good good great"))))
      = [lit "great"; lit "good"]) by (by vm_compute).
    rewrite E. split; [done|]. intros w.
    rewrite !elem_of_cons, elem_of_nil. tauto.
Qed.


(** * Further properties of the module *)

(** ** Lengths *)

Lemma lstrip_length s : (length (lstrip s) ≤ length s)%nat.
Proof.
  induction s as [|c s IH]; simpl; [done|].
  destruct (isspace c); simpl; lia.
Qed.

Lemma strip_length s : (length (strip s) ≤ length s)%nat.
Proof.
  unfold strip, rstrip. rewrite length_reverse.
  pose proof (lstrip_length (reverse (lstrip s))) as H1.
  rewrite length_reverse in H1. pose proof (lstrip_length s). lia.
Qed.

Lemma sub_ws_runs_length b s : (length (sub_ws_runs b s) ≤ length s)%nat.
Proof.
  revert b. induction s as [|c s IH]; intros b; simpl; [done|].
  destruct (isspace c); [destruct b|]; simpl;
    [pose proof (IH true) | pose proof (IH true) | pose proof (IH false)]; lia.
Qed.

Lemma list_filter_length {A} (f : A → bool) l :
  (length (List.filter f l) ≤ length l)%nat.
Proof.
  induction l as [|x l IH]; simpl; [done|]. destruct (f x); simpl; lia.
Qed.

Lemma is_prefix_length p s : is_prefix p s = true → (length p ≤ length s)%nat.
Proof.
  revert s. induction p as [|a p IH]; intros [|b s]; simpl; try done; [lia|].
  intros [_ H]%andb_true_iff. specialize (IH s H). lia.
Qed.

Lemma replace_from_length old new k s :
  (length new ≤ length old)%nat →
  (length (replace_from old new k s) + Nat.min k (length s) ≤ length s)%nat.
Proof.
  intros Hn. revert k. induction s as [|c s IH]; intros k; [simpl; lia|].
  cbn [replace_from]. destruct k as [|k].
  - destruct (is_prefix old (c :: s)) eqn:E.
    + apply is_prefix_length in E. cbn [length] in *.
      rewrite length_app. pose proof (IH (pred (length old))). lia.
    + cbn [length]. pose proof (IH 0%nat). lia.
  - cbn [length]. pose proof (IH k). lia.
Qed.

Lemma str_replace_length old new s :
  old ≠ [] → (length new ≤ length old)%nat →
  (length (str_replace old new s) ≤ length s)%nat.
Proof.
  intros Ho Hn. destruct old as [|a old]; [done|]. unfold str_replace.
  pose proof (replace_from_length (a :: old) new 0 s Hn). lia.
Qed.

(** X1.  Whatever the input, the result of [clean_text] is made of the
    characters line 29 keeps (word characters, white space and the eleven
    punctuation marks), and its only white-space character is the plain
    space: no tab, newline or other Unicode space survives. *)
Theorem clean_text_alphabet text :
  Forall (λ c, kept c = true ∧ (isspace c = true → c = 32)
               ∧ c ≠ 9 ∧ c ≠ 10 ∧ c ≠ 13)
    (clean_text text).
Proof.
  eapply Forall_impl; [apply clean_text_chars|]. intros c [Hk Hs].
  split; [done|]. split; [done|].
  repeat split; intros ->; by specialize (Hs eq_refl).
Qed.

Lemma clean_text_length text :
  (length (clean_text text) ≤ length text)%nat.
Proof.
  unfold clean_text. destruct (negb (truthy text)); [simpl; lia|].
  cbv zeta. unfold dquote. rewrite !str_replace_same.
  etrans; [apply str_replace_length; [done | simpl; lia]|].
  etrans; [apply str_replace_length; [done | simpl; lia]|].
  etrans; [apply str_replace_length; [done | simpl; lia]|].
  etrans; [apply list_filter_length|].
  unfold collapse_whitespace.
  etrans; [apply sub_ws_runs_length | apply strip_length].
Qed.

(** X2.  [clean_text] never returns more characters than it was given. *)
Theorem clean_text_never_longer text :
  (len (clean_text text) ≤ len text)%Z.
Proof. unfold len. pose proof (clean_text_length text). lia. Qed.

(** X3.  A text made of white space only is cleaned to the empty string. *)
Theorem clean_text_blank_input text :
  Forall (λ c, isspace c = true) text → clean_text text = [].
Proof.
  intros H. unfold clean_text. destruct (negb (truthy text)); [done|].
  cbv zeta. unfold collapse_whitespace.
  by rewrite (proj2 (strip_nil text) H).
Qed.

(** ** Syllables and complex words *)

Lemma syllable_scan_bound b acc s :
  (acc ≤ syllable_scan b acc s)%Z
  ∧ (2 * syllable_scan b acc s
     ≤ 2 * acc + len s + (if b then 0 else 1))%Z.
Proof.
  revert b acc. induction s as [|c s IH]; intros b acc.
  - unfold len. simpl. destruct b; lia.
  - cbn [syllable_scan]. cbv zeta.
    destruct (IH (is_vowel c)
                (if is_vowel c && negb b then (acc + 1)%Z else acc))
      as [H1 H2].
    unfold len in *. cbn [length]. rewrite Nat2Z.inj_succ.
    destruct (is_vowel c), b; simpl in *; lia.
Qed.

Lemma count_syllables_range text :
  (1 ≤ count_syllables text)%Z
  ∧ (2 * count_syllables text ≤ Z.max 2 (len (lower text) + 1))%Z.
Proof.
  unfold count_syllables. cbv zeta.
  destruct (syllable_scan_bound false 0 (lower text)) as [H1 H2].
  destruct (ends_with_e (lower text)); lia.
Qed.

(** X5.  [count_syllables] is at least 1 on every text, the empty one and
    texts without a vowel included, and at most half the length of the
    lower-cased text, rounded up.  So a text of fewer than five characters
    never counts three syllables. *)
Theorem count_syllables_bounds text :
  (1 ≤ count_syllables text)%Z
  ∧ (2 * count_syllables text ≤ Z.max 2 (len (lower text) + 1))%Z
  ∧ ((len (lower text) < 5)%Z → (count_syllables text < 3)%Z).
Proof.
  destruct (count_syllables_range text) as [H1 H2].
  split; [done|]. split; [done|]. lia.
Qed.

Lemma list_filter_length_impl {A} (f g : A → bool) l :
  (∀ x, f x = true → g x = true) →
  (length (List.filter f l) ≤ length (List.filter g l))%nat.
Proof.
  intros Hfg. induction l as [|x l IH]; simpl; [done|].
  destruct (f x) eqn:E.
  - rewrite (Hfg x E). simpl. lia.
  - destruct (g x); simpl; lia.
Qed.

Lemma count_complex_words_range text :
  (0 ≤ count_complex_words text)%Z
  ∧ (count_complex_words text
     ≤ len (List.filter (λ word, (5 <=? len (lower word))%Z)
              (findall_words (lower text))))%Z
  ∧ (count_complex_words text ≤ len (findall_words (lower text)))%Z.
Proof.
  unfold count_complex_words, len. cbv zeta.
  assert (H : (length (List.filter (λ word, (3 <=? count_syllables word)%Z)
                        (findall_words (lower text)))
               ≤ length (List.filter
                           (λ word, (5 <=? Z.of_nat (length (lower word)))%Z)
                           (findall_words (lower text))))%nat).
  { apply list_filter_length_impl. intros w Hw. apply Z.leb_le in Hw.
    apply Z.leb_le. destruct (count_syllables_range w) as (_ & H).
    unfold len in H. lia. }
  pose proof (list_filter_length
                (λ word, (5 <=? Z.of_nat (length (lower word)))%Z)
                (findall_words (lower text))).
  lia.
Qed.

(** X6.  Only word tokens of at least five characters can count as
    complex; in particular the number of complex words is between 0 and
    the number of word tokens. *)
Theorem count_complex_words_bounds text :
  (0 ≤ count_complex_words text)%Z
  ∧ (count_complex_words text
     ≤ len (List.filter (λ word, (5 <=? len (lower word))%Z)
              (findall_words (lower text))))%Z
  ∧ (count_complex_words text ≤ len (findall_words (lower text)))%Z.
Proof. apply count_complex_words_range. Qed.

(** ** Words and sentences *)

Lemma findall_from_no_word cur s :
  Forall (λ c, is_word c = false) s →
  findall_from cur s = match cur with [] => [] | _ :: _ => [cur] end.
Proof.
  intros Hs. revert cur.
  induction Hs as [|c s Hc Hs IH]; intros cur; simpl; [done|].
  rewrite Hc. destruct cur; by rewrite IH.
Qed.

Lemma lower_from_no_word before s :
  Forall (λ c, c < 128 ∧ is_word (ascii_lower c) = false) s →
  Forall (λ d, is_word d = false) (lower_from before s).
Proof.
  intros Hs. revert before.
  induction Hs as [|c s [Hc Hw] Hs IH]; intros before; simpl; [constructor|].
  apply N.ltb_lt in Hc. rewrite Hc. constructor; [done | apply IH].
Qed.

Lemma is_terminator_true c :
  is_terminator c = true → c = 46 ∨ c = 33 ∨ c = 63.
Proof.
  unfold is_terminator. rewrite !orb_true_iff, !N.eqb_eq. tauto.
Qed.

Lemma resplit_from_covers cur b s c :
  c ∈ cur ∨ (c ∈ s ∧ is_terminator c = false) →
  ∃ p, p ∈ resplit_from cur b s ∧ c ∈ p.
Proof.
  revert cur b. induction s as [|d s IH]; intros cur b Hc; simpl.
  - destruct Hc as [Hc|[Hc _]]; [|by apply elem_of_nil in Hc].
    exists cur. split; [by left | done].
  - destruct (is_terminator d) eqn:Ed.
    + assert (Hs : c ∈ cur ∨ (c ∈ s ∧ is_terminator c = false)).
      { destruct Hc as [Hc|[Hc Ht]]; [by left|]. right.
        apply elem_of_cons in Hc as [-> | Hc]; [congruence | done]. }
      destruct b; [by apply IH|].
      destruct Hs as [Hs|Hs].
      * exists cur. split; [by left | done].
      * destruct (IH [] true (or_intror Hs)) as (p & Hp & Hcp).
        exists p. split; [by right | done].
    + apply IH. destruct Hc as [Hc|[Hc Ht]].
      * left. apply elem_of_app. by left.
      * apply elem_of_cons in Hc as [-> | Hc].
        -- left. apply elem_of_app. right. by left.
        -- by right.
Qed.

(** A cleaned text with a word token has a sentence. *)
Lemma word_needs_sentence t :
  Forall clean_char t →
  findall_words (lower t) ≠ [] → readability_sentences t ≠ [].
Proof.
  intros Hclean Hw.
  destruct (decide (Forall (λ c, isspace c = true ∨ is_terminator c = true) t))
    as [Hall|Hex].
  - destruct Hw. unfold findall_words, lower.
    rewrite findall_from_no_word; [done|]. apply lower_from_no_word.
    rewrite Forall_forall in Hall, Hclean. apply Forall_forall. intros c Hc.
    destruct (Hall c Hc) as [Hsp|Ht].
    + destruct (Hclean c Hc) as [_ H32]. rewrite (H32 Hsp). done.
    + apply is_terminator_true in Ht as [-> | [-> | ->]]; done.
  - apply not_Forall_Exists in Hex; [|intros ?; apply _].
    apply Exists_exists in Hex as (c & Hc & Hn). simpl in Hn.
    assert (Hsp : isspace c = false) by (destruct (isspace c); tauto).
    assert (Ht : is_terminator c = false)
      by (destruct (is_terminator c); tauto).
    destruct (resplit_from_covers [] false t c) as (p & Hp & Hcp);
      [by right|].
    assert (Hstrip : strip p ≠ []).
    { intros E. apply strip_nil in E. rewrite Forall_forall in E.
      specialize (E c Hcp). congruence. }
    unfold readability_sentences. intros E.
    assert (Hin : strip p ∈ strip <$> List.filter (λ s, truthy (strip s))
                               (split_sentences t)).
    { apply list_elem_of_fmap_2, elem_of_list_filter. split; [done|].
      by destruct (strip p). }
    rewrite E in Hin. by apply elem_of_nil in Hin.
Qed.

(** X8.  [calculate_readability_score] returns the empty report exactly
    when the cleaned text has no word token: a cleaned text with a word
    always has a sentence, so the test for zero sentences of line 105 never
    decides alone. *)
Theorem readability_report_iff_words text :
  (calculate_readability_score text = Returns None
   ↔ findall_words (lower (clean_text text)) = [])
  ∧ (findall_words (lower (clean_text text)) ≠ []
     → readability_sentences (clean_text text) ≠ []).
Proof.
  assert (Hws : findall_words (lower (clean_text text)) ≠ []
                → readability_sentences (clean_text text) ≠ [])
    by apply word_needs_sentence, clean_text_chars.
  split; [|exact Hws].
  destruct (calculate_readability_score_shape text)
    as [[H0 H]|(Hw & Hs & rep & H & _)]; rewrite H.
  - split; [intros _|done]. unfold len in H0.
    destruct (findall_words (lower (clean_text text))) as [|w ws]; [done|].
    destruct H0 as [H0|H0]; [done|].
    destruct (readability_sentences (clean_text text)); [|done].
    by destruct Hws.
  - split; [done|]. intros E. rewrite E in Hw. done.
Qed.

(** ** The counts of the statistics report *)

Lemma calculate_text_statistics_fields text r :
  calculate_text_statistics text = Returns (Some r) →
  let t := clean_text text in
  characters r = len t
  ∧ characters_no_spaces r = len (str_replace [32] [] t)
  ∧ words r = len (findall_words t)
  ∧ sentences r = len (split_sentences t)
  ∧ unique_words r = len (Counter (findall_words (lower t))).
Proof.
  intros H t. destruct text as [|c text]; [done|].
  unfold calculate_text_statistics in H. cbn [truthy negb] in H.
  cbv zeta in H. fold t in H.
  assert (Havg : ∃ q,
    (if (0 <? len (findall_words t))%Z
     then q ← truediv (sum_len (findall_words t)) (len (findall_words t));
          Returns (PyFloat q)
     else Returns (PyInt 0)) = Returns q).
  { destruct (0 <? len (findall_words t))%Z eqn:E; [|by eexists].
    apply Z.ltb_lt in E. rewrite truediv_nonzero by lia. by eexists. }
  destruct Havg as [q Hq]. rewrite Hq in H.
  assert (Hread : ∃ o, calculate_readability_score t = Returns o).
  { destruct (calculate_readability_score_shape t)
      as [[_ ->]|(_ & _ & rep & -> & _)]; by eexists. }
  destruct Hread as [o Ho]. rewrite Ho in H.
  rewrite truediv_nonzero in H by done. by injection H as <-.
Qed.

Lemma resplit_from_nonempty cur b s : (1 ≤ length (resplit_from cur b s))%nat.
Proof.
  revert cur b. induction s as [|c s IH]; intros cur b; simpl; [done|].
  destruct (is_terminator c); [destruct b|]; simpl; try apply IH. lia.
Qed.

Lemma findall_from_length cur s :
  (length (findall_from cur s)
   ≤ (match cur with [] => 0 | _ :: _ => 1 end)
     + length (List.filter is_word s))%nat.
Proof.
  revert cur. induction s as [|c s IH]; intros cur; simpl.
  - destruct cur; simpl; lia.
  - destruct (is_word c); simpl.
    + pose proof (IH (cur ++ [c])). destruct cur; simpl in *; lia.
    + pose proof (IH []). destruct cur; simpl in *; lia.
Qed.

Lemma replace_space_filter s :
  str_replace [32] [] s = List.filter (λ c, negb (c =? 32)) s.
Proof.
  unfold str_replace. induction s as [|c s IH]; [done|].
  cbn [replace_from is_prefix List.filter length pred].
  rewrite andb_true_r, (N.eqb_sym 32 c).
  destruct (c =? 32); simpl; by rewrite IH.
Qed.

(** X9.  In every statistics report the counts are consistent: at least
    one sentence is counted (even when there is no word), and
    [0 <= words <= characters_no_spaces <= characters], where [characters]
    is at most the length of the input. *)
Theorem statistics_counts_consistent text r :
  calculate_text_statistics text = Returns (Some r) →
  (1 ≤ sentences r)%Z
  ∧ (0 ≤ words r)%Z
  ∧ (words r ≤ characters_no_spaces r)%Z
  ∧ (characters_no_spaces r ≤ characters r)%Z
  ∧ (characters r ≤ len text)%Z.
Proof.
  intros H.
  destruct (calculate_text_statistics_fields text r H)
    as (-> & -> & -> & -> & _).
  set (t := clean_text text). unfold len.
  pose proof (resplit_from_nonempty [] false t) as Hs.
  pose proof (clean_text_length text) as Hl. fold t in Hl.
  rewrite replace_space_filter.
  pose proof (list_filter_length (λ c, negb (c =? 32)) t) as Hf.
  pose proof (findall_from_length [] t) as Hw.
  assert (Hi : (length (List.filter is_word t)
                ≤ length (List.filter (λ c, negb (c =? 32)%N) t))%nat).
  { apply list_filter_length_impl. intros c Hc.
    destruct (c =? 32) eqn:E; [|done].
    apply N.eqb_eq in E. subst. done. }
  unfold split_sentences, findall_words. simpl in Hw. lia.
Qed.

(** ** Sentiment *)

Lemma sentiment_lexicons_disjoint w :
  w ∈ positive_words → w ∉ negative_words.
Proof.
  assert (H : positive_words ∩ negative_words = ∅) by (by vm_compute).
  intros Hp Hn. assert (Hi : w ∈ positive_words ∩ negative_words)
    by (by apply elem_of_intersection).
  rewrite H in Hi. by apply elem_of_empty in Hi.
Qed.

(** X10.  No word is reported both as positive and as negative. *)
Theorem sentiment_lists_disjoint text w :
  w ∈ sentiment_positive (extract_sentiment_words text) →
  w ∉ sentiment_negative (extract_sentiment_words text).
Proof.
  unfold extract_sentiment_words. cbv zeta.
  cbn [sentiment_positive sentiment_negative].
  intros [_ Hp]%list_of_set_elem%elem_of_list_filter.
  intros [_ Hn]%list_of_set_elem%elem_of_list_filter.
  apply bool_decide_eq_true in Hp, Hn.
  by apply (sentiment_lexicons_disjoint w).
Qed.

(** ** [generate_summary] *)

Lemma rstrip_shorter s c :
  last s = Some c → isspace c = true →
  (length (rstrip s) < length s)%nat.
Proof.
  intros [u ->]%last_Some Hc. unfold rstrip.
  rewrite reverse_snoc. cbn [lstrip]. rewrite Hc, length_reverse, length_app.
  pose proof (lstrip_length (reverse u)) as H. rewrite length_reverse in H.
  simpl. lia.
Qed.

Lemma strip_shorter s c :
  last s = Some c → isspace c = true →
  (length (strip s) < length s)%nat.
Proof.
  intros Hl Hc. unfold strip.
  destruct (lstrip_prefix s) as (p & Hp & _).
  assert (Hlen : (length (lstrip s) ≤ length s)%nat) by apply lstrip_length.
  destruct (lstrip s) as [|d u] eqn:E.
  - assert (s ≠ []) by (intros ->; done). destruct s; [done|]. simpl. lia.
  - assert (Hl' : last (d :: u) = Some c).
    { rewrite Hp, last_app_cons in Hl. exact Hl. }
    pose proof (rstrip_shorter (d :: u) c Hl' Hc). lia.
Qed.

Lemma summary_loop_shape n summary sentences :
  summary_loop n summary sentences = summary
  ∨ ((len (summary_loop n summary sentences) ≤ n + 2)%Z
     ∧ last (summary_loop n summary sentences) = Some 32).
Proof.
  revert summary. induction sentences as [|sentence rest IH]; intros summary;
    simpl; [by left|].
  destruct (len (summary ++ sentence) <=? n)%Z eqn:E; [|by left].
  apply Z.leb_le in E. right.
  destruct (IH (summary ++ sentence ++ [46; 32])) as [-> | H]; [|done].
  split.
  - unfold len in *. rewrite !length_app in *. simpl. lia.
  - rewrite !last_app. done.
Qed.

(** X11.  The summary is at most [max_length + 1] characters long (and
    empty when [max_length] is negative): the test of line 214 leaves out
    the full stop appended after each sentence.  The bound is reached: with
    [max_length = 5] the summary of [aaaaa. bbbbbbbbbbb] has 6
    characters. *)
Theorem generate_summary_length text max_length :
  (len (generate_summary text max_length) ≤ Z.max 0 (max_length + 1))%Z
  ∧ generate_summary (lit "aaaaa. bbbbbbbbbbb") 5 = lit "aaaaa.".
Proof.
  split; [|by vm_compute].
  unfold generate_summary. destruct (negb (truthy text)); [unfold len; simpl; lia|].
  cbv zeta. destruct (negb _); [unfold len; simpl; lia|].
  destruct (len (clean_text text) <=? max_length)%Z eqn:E.
  - apply Z.leb_le in E. lia.
  - destruct (summary_loop_shape max_length []
                (readability_sentences (clean_text text))) as [-> | [Hl H32]].
    + unfold len. simpl. lia.
    + pose proof (strip_shorter _ 32 H32 eq_refl). unfold len in *. lia.
Qed.

Lemma resplit_from_piece_length cur b s p :
  p ∈ resplit_from cur b s → (length p ≤ length cur + length s)%nat.
Proof.
  revert cur b. induction s as [|c s IH]; intros cur b; simpl.
  - intros ->%list_elem_of_singleton. lia.
  - destruct (is_terminator c); [destruct b|].
    + intros H%IH. lia.
    + intros [-> | H%IH]%elem_of_cons; simpl in *; lia.
    + intros H%IH. rewrite length_app in H. simpl in H. lia.
Qed.

(** X12.  When the first sentence of the cleaned text is longer than
    [max_length], the summary is empty: nothing is truncated inside a
    sentence. *)
Theorem generate_summary_first_sentence_too_long text max_length s1 rest :
  readability_sentences (clean_text text) = s1 :: rest →
  (max_length < len s1)%Z →
  generate_summary text max_length = [].
Proof.
  intros Hs Hlen. unfold generate_summary.
  destruct (negb (truthy text)); [done|]. cbv zeta. rewrite Hs. cbn [negb].
  assert (Hin : s1 ∈ readability_sentences (clean_text text))
    by (rewrite Hs; by left).
  unfold readability_sentences in Hin.
  apply list_elem_of_fmap in Hin as (p & -> & [Hp _]%elem_of_list_filter).
  apply resplit_from_piece_length in Hp. pose proof (strip_length p).
  unfold len in *. simpl in Hp.
  rewrite (proj2 (Z.leb_gt _ _)) by lia.
  cbn [summary_loop app]. unfold len.
  rewrite (proj2 (Z.leb_gt _ _)) by lia. done.
Qed.

(** ** [normalize_text] *)

Lemma has_double_space_app_r p s :
  has_double_space (p ++ s) = false → has_double_space s = false.
Proof.
  induction p as [|a p IH]; [done|]. intros H. apply IH.
  change ((a :: p) ++ s) with (a :: (p ++ s)) in H.
  destruct (p ++ s) as [|b u]; [done|].
  change (has_double_space (a :: b :: u))
    with ((a =? 32) && (b =? 32) || has_double_space (b :: u)) in H.
  by apply orb_false_iff in H as [_ H].
Qed.

Lemma has_double_space_app_l p s :
  has_double_space (p ++ s) = false → has_double_space p = false.
Proof.
  induction p as [|a p IH]; [done|]. destruct p as [|b p]; [done|].
  change ((a :: b :: p) ++ s) with (a :: b :: (p ++ s)).
  change (has_double_space (a :: b :: (p ++ s)))
    with ((a =? 32) && (b =? 32) || has_double_space ((b :: p) ++ s)).
  change (has_double_space (a :: b :: p))
    with ((a =? 32) && (b =? 32) || has_double_space (b :: p)).
  intros [H1 H2]%orb_false_iff. by rewrite H1, IH.
Qed.

(** The result of line 323 followed by line 328: single plain spaces
    between the other characters, none at either end. *)
Lemma strip_sub_ws_runs_shape s :
  well_spaced (strip (sub_ws_runs false s)) = true
  ∧ Forall (λ c, isspace c = true → c = 32) (strip (sub_ws_runs false s)).
Proof.
  set (u := sub_ws_runs false s).
  assert (Hplain : Forall (λ c, isspace c = true → c = 32) (strip u))
    by apply strip_Forall, sub_ws_runs_plain.
  split; [|done].
  destruct (strip_ends u) as [Hh Hl].
  destruct (strip_decompose u) as (p & q & Hu).
  assert (Hd : has_double_space (strip u) = false).
  { pose proof (proj2 (sub_ws_runs_spacing s) false) as H. fold u in H.
    rewrite Hu in H. by apply has_double_space_app_r, has_double_space_app_l in H. }
  unfold well_spaced. rewrite Hd, !andb_true_iff, !negb_true_iff.
  repeat split.
  - destruct (strip u) as [|c w]; [done|]. simpl.
    apply N.eqb_neq. intros ->. done.
  - unfold ends_with_space. destruct (last (strip u)) as [c|]; [|done].
    apply N.eqb_neq. intros ->. done.
Qed.

Lemma normalize_text_shape text :
  well_spaced (normalize_text text) = true
  ∧ Forall (λ c, isspace c = true → c = 32) (normalize_text text).
Proof.
  unfold normalize_text. destruct (negb (truthy text)); [by split|].
  cbv zeta. apply strip_sub_ws_runs_shape.
Qed.

(** X13.  The result of [normalize_text] has no white space at either end,
    and its white space is single plain spaces: no tab, newline or run of
    spaces is left. *)
Theorem normalize_text_well_spaced text :
  well_spaced (normalize_text text) = true
  ∧ Forall (λ c, isspace c = true → c = 32 ∧ c ≠ 9 ∧ c ≠ 10)
      (normalize_text text).
Proof.
  destruct (normalize_text_shape text) as [Hw Hp]. split; [done|].
  eapply Forall_impl; [exact Hp|]. intros c Hc Hs.
  specialize (Hc Hs). subst. done.
Qed.

Lemma lstrip_id_plain s :
  Forall (λ c, isspace c = true → c = 32) s →
  starts_with_space s = false → lstrip s = s.
Proof.
  destruct 1 as [|c s Hc Hs]; simpl; [done|].
  intros E. destruct (isspace c) eqn:Ec; [|done].
  rewrite (Hc eq_refl) in E. done.
Qed.

Lemma strip_id_plain s :
  Forall (λ c, isspace c = true → c = 32) s →
  well_spaced s = true → strip s = s.
Proof.
  intros Hs Hw. apply andb_true_iff in Hw as [Hw _].
  apply andb_true_iff in Hw as [Hl Hr]. apply negb_true_iff in Hl, Hr.
  unfold strip. rewrite (lstrip_id_plain s) by done. unfold rstrip.
  rewrite lstrip_id_plain; [apply reverse_involutive | by apply Forall_reverse |].
  unfold ends_with_space in Hr. rewrite <- head_reverse in Hr.
  by destruct (reverse s).
Qed.

Lemma sub_ws_runs_id_plain b s :
  Forall (λ c, isspace c = true → c = 32) s →
  (b = true → starts_with_space s = false) →
  has_double_space s = false →
  sub_ws_runs b s = s.
Proof.
  intros Hs. revert b.
  induction Hs as [|c s Hc Hs IH]; intros b Hb Hd; [done|].
  cbn [sub_ws_runs]. destruct (isspace c) eqn:Ec.
  - specialize (Hc eq_refl). subst c.
    destruct b; [by specialize (Hb eq_refl)|].
    f_equal. destruct s as [|d s]; [done|].
    change (has_double_space (32 :: d :: s))
      with ((32 =? 32) && (d =? 32) || has_double_space (d :: s)) in Hd.
    apply orb_false_iff in Hd as [Hd1 Hd2].
    apply IH; [intros _; exact Hd1 | exact Hd2].
  - f_equal. apply IH; [done|].
    destruct s as [|d s]; [done|].
    change (has_double_space (c :: d :: s))
      with ((c =? 32) && (d =? 32) || has_double_space (d :: s)) in Hd.
    by apply orb_false_iff in Hd as [_ Hd2].
Qed.

Lemma lower_from_lowered before s :
  Forall ascii_lowered s → lower_from before s = s.
Proof.
  intros Hs. revert before.
  induction Hs as [|c s [Hc Hl] Hs IH]; intros before; simpl; [done|].
  rewrite (proj2 (N.ltb_lt c 128) Hc), Hl. simpl. by rewrite IH.
Qed.

(** X14.  On ASCII text [normalize_text] is idempotent. *)
Theorem normalize_text_idempotent_ascii text :
  Forall (λ c, c < 128) text →
  normalize_text (normalize_text text) = normalize_text text.
Proof.
  intros Ha.
  destruct (normalize_text_shape text) as [Hw Hp].
  assert (Hl : Forall ascii_lowered (normalize_text text)).
  { unfold normalize_text. destruct (negb (truthy text)); [constructor|].
    cbv zeta. apply strip_Forall, sub_ws_runs_Forall; [done|].
    by apply lower_from_ascii. }
  set (y := normalize_text text) in *.
  unfold normalize_text at 1. destruct (negb (truthy y)) eqn:Et;
    [by destruct y|].
  cbv zeta. unfold lower. rewrite lower_from_lowered by done.
  rewrite sub_ws_runs_id_plain; [by apply strip_id_plain | done | done |].
  apply andb_true_iff in Hw as [_ Hd]. by apply negb_true_iff in Hd.
Qed.

(** ** Hashtags, mentions and URLs *)

Lemma findall_tagged_no_mark mark s :
  Forall (λ c, c ≠ mark) s → findall_tagged mark [] s = [].
Proof.
  induction 1 as [|c s Hc Hs IH]; simpl; [done|].
  by rewrite (proj2 (N.eqb_neq c mark) Hc).
Qed.

(** X15.  No hashtag and no mention survives [clean_text]: the hash and the
    at sign are among the characters line 29 deletes. *)
Theorem clean_text_removes_tags text :
  extract_hashtags (clean_text text) = []
  ∧ extract_mentions (clean_text text) = [].
Proof.
  pose proof (clean_text_chars text) as H.
  unfold extract_hashtags, extract_mentions. cbv zeta.
  rewrite !findall_tagged_no_mark; [done| |];
    (eapply Forall_impl; [exact H|]; intros c [Hk _] ->; done).
Qed.

Lemma url_match_needs_slash s n : url_match s = Some n → 47 ∈ s.
Proof.
  unfold url_match. destruct (is_prefix (lit "http") s); [|done].
  cbv zeta.
  set (has_s := match drop 4 s with c :: _ => c =? 115 | [] => false end).
  set (after := if has_s then drop 1 (drop 4 s) else drop 4 s).
  assert (Hsub : after ⊆ s).
  { unfold after. destruct has_s; [|apply subseteq_drop].
    etrans; apply subseteq_drop. }
  destruct (is_prefix (lit "://") after) eqn:Ep; [|done].
  intros _. apply Hsub. change (lit "://") with [58; 47; 47] in Ep.
  destruct after as [|a [|b after']]; cbn [is_prefix] in Ep; try done;
    [by rewrite andb_false_r in Ep|].
  apply andb_true_iff in Ep as [_ Ep]. apply andb_true_iff in Ep as [Ep _].
  apply N.eqb_eq in Ep. subst b. right. by left.
Qed.

Lemma urls_from_no_slash s : Forall (λ c, c ≠ 47) s → urls_from 0 s = [].
Proof.
  induction 1 as [|c s Hc Hs IH]; [done|]. cbn [urls_from].
  destruct (url_match (c :: s)) as [n|] eqn:E; [|exact IH].
  apply url_match_needs_slash in E.
  assert (Hall : Forall (λ c, c ≠ 47) (c :: s)) by (by constructor).
  rewrite Forall_forall in Hall. by destruct (Hall 47 E).
Qed.

(** X16.  No URL survives [clean_text]: the slash is among the characters
    line 29 deletes, and every match of [url_pattern] contains one. *)
Theorem clean_text_removes_urls text :
  extract_urls (clean_text text) = [].
Proof.
  unfold extract_urls. cbv zeta. apply urls_from_no_slash.
  eapply Forall_impl; [apply clean_text_chars|]. intros c [Hk _] ->. done.
Qed.

End TextUtils.

(** * Closed instances

    The statements above hold for every Unicode database.  The instances
    below evaluate the code on ASCII inputs; the refutations hold whatever
    the database. *)


(** The float arithmetic on examples: the quotient of two ints is the
    nearest float, the raw score of two words, one sentence and three
    syllables is 77.905000000000015, and [round] rounds the exact binary
    value (0.025 lies just above the decimal 0.025, 2.675 just below the
    decimal 2.675, and 0.125 is an exact tie, which goes to the even
    digit). *)
Lemma float_arithmetic_examples :
  int_quotient 1 40 = 0.025%float
  ∧ int_quotient 3 2 = 1.5%float
  ∧ flesch_formula (int_quotient 2 1) (int_quotient 3 2)
    = 77.905000000000015%float
  ∧ float_round 77.905000000000015 2 = 77.91%float
  ∧ float_round (int_quotient 1 40) 2 = 0.03%float
  ∧ float_round (int_quotient 10 200) 1 = 0.1%float
  ∧ float_round 2.675 2 = 2.67%float
  ∧ float_round 0.125 2 = 0.12%float
  ∧ py_round (py_max (PyInt 0) (py_min (PyInt 100) (PyFloat 120.5))) 2
    = PyInt 100
  ∧ py_round (py_max (PyInt 0) (py_min (PyInt 100) (PyFloat (-3.25)))) 2
    = PyInt 0.
Proof. repeat split; vm_compute; reflexivity. Qed.

(** C6, an instance: the raw score of [Hello world.] is
    77.905000000000015 and the report gives 77.91. *)
Lemma flesch_reading_ease_witness :
  ∃ rep,
    @calculate_readability_score basic_unicode (lit "Hello world.")
    = Returns (Some rep)
    ∧ flesch_reading_ease rep = PyFloat 77.91
    ∧ num_leb (PyInt 0) (flesch_reading_ease rep) = true
    ∧ num_leb (flesch_reading_ease rep) (PyInt 100) = true.
Proof.
  eexists. split; [vm_compute; reflexivity|]. split; [reflexivity|].
  eapply (@flesch_reading_ease_bounded basic_unicode (lit "Hello world.")).
  vm_compute. reflexivity.
Defined.



(** X3, an instance: a space, a tab and a newline. *)
Lemma clean_text_blank_input_witness :
  @clean_text basic_unicode [32; 9; 10] = [].
Proof.
  apply (@clean_text_blank_input basic_unicode).
  repeat constructor.
Defined.

(** X4, an instance. *)
Lemma clean_text_idempotent_on_kept_input_witness :
  @clean_text basic_unicode
    (@clean_text basic_unicode (lit "  Dear  customer, it's (almost) time!  "))
  = @clean_text basic_unicode (lit "  Dear  customer, it's (almost) time!  ").
Proof.
  apply (@clean_text_idempotent_on_kept_input basic_unicode).
  - eapply bool_decide_unpack. vm_compute. exact I.
  - vm_compute. reflexivity.
Defined.

(** X9, an instance: the report of [Hello world.]. *)
Lemma statistics_counts_consistent_witness :
  ∃ r,
    @calculate_text_statistics basic_unicode (lit "Hello world.")
    = Returns (Some r)
    ∧ (1 ≤ sentences r)%Z
    ∧ (0 ≤ words r)%Z
    ∧ (words r ≤ characters_no_spaces r)%Z
    ∧ (characters_no_spaces r ≤ characters r)%Z
    ∧ (characters r ≤ len (lit "Hello world."))%Z.
Proof.
  eexists. split; [vm_compute; reflexivity|].
  apply (@statistics_counts_consistent basic_unicode (lit "Hello world.")).
  vm_compute. reflexivity.
Defined.

(** X10, an instance: in [good bad], good is positive and not negative. *)
Lemma sentiment_lists_disjoint_witness :
  lit "good" ∉
    sentiment_negative (@extract_sentiment_words basic_unicode (lit "good bad")).
Proof.
  apply (@sentiment_lists_disjoint basic_unicode).
  eapply bool_decide_unpack. vm_compute. exact I.
Defined.

(** X12, an instance: a first sentence of ten characters and a limit of 5. *)
Lemma generate_summary_first_sentence_too_long_witness :
  @generate_summary basic_unicode (lit "aaaaaaaaaa. b") 5 = [].
Proof.
  apply (@generate_summary_first_sentence_too_long basic_unicode
           (lit "aaaaaaaaaa. b") 5 (lit "aaaaaaaaaa") [lit "b"]).
  - vm_compute. reflexivity.
  - vm_compute. reflexivity.
Defined.

(** X14, an instance. *)
Lemma normalize_text_idempotent_ascii_witness :
  @normalize_text basic_unicode
    (@normalize_text basic_unicode (lit "  Hello   World  "))
  = @normalize_text basic_unicode (lit "  Hello   World  ").
Proof.
  apply (@normalize_text_idempotent_ascii basic_unicode).
  eapply bool_decide_unpack. vm_compute. exact I.
Defined.
